(** * KeccakTools: parity bookkeeping of Keccak-f (Sources/Keccak-fParity.h)

    A shallow embedding of the parity functions of KeccakTools and the
    properties of their specification.

    Integers are modelled as [Z] with the wrap-around of the C++ type
    written out, vectors as lists read and written by index.  A
    computation whose C++ behaviour is undefined (a shift by at least the
    width of the shifted type, a vector read or written past its end)
    yields [None]; every other computation yields [Some] of its value.
    The header contains no [throw] and no assertion, so there is no third
    outcome. *)

From stdpp Require Import base list.
From Stdlib Require Import ZArith Lia Bool Btauto.

Local Open Scope Z_scope.

(** ** Fixed-width unsigned arithmetic *)

Module Word.

(** The value of [a] in an unsigned type of [w] bits. *)
Definition wrap (w a : Z) : Z := a mod 2 ^ w.

(** [a << s] on an unsigned type of [w] bits; undefined for [s >= w]. *)
Definition shl (w a s : Z) : option Z :=
  if s <? w then Some (wrap w (Z.shiftl a s)) else None.

(** [a >> s] on an unsigned type of [w] bits; undefined for [s >= w]. *)
Definition shr (w a s : Z) : option Z :=
  if s <? w then Some (Z.shiftr a s) else None.

(** [a * b] on [unsigned int], of 32 bits. *)
Definition umul (a b : Z) : Z := wrap 32 (a * b).

End Word.

(** ** Computations that may be undefined *)

Definition bind {A B : Type} (m : option A) (k : A -> option B) : option B :=
  match m with
  | Some a => k a
  | None => None
  end.

Notation "x <- m ; k" := (bind m (fun x => k))
  (at level 20, m at level 100, k at level 200, only parsing).

(** [for (i = 0; i < n; i++) body], threading the variables the body
    assigns. *)
Fixpoint for_loop {St : Type} (n : nat) (body : nat -> St -> option St) (s : St)
  : option St :=
  match n with
  | O => Some s
  | S n' => s' <- for_loop n' body s; body n' s'
  end.

(** [v[i] = x] on a vector; writing past the end is undefined. *)
Definition vset (v : list Z) (i : nat) (x : Z) : option (list Z) :=
  if (i <? length v)%nat then Some (<[i:=x]> v) else None.

(** ** The inline functions of Keccak-fParity.h *)

(** [typedef UINT64 PackedParity;] *)
Definition PackedParity_bits : Z := 64.

(** [return (PackedParity)parity << (5*z);] *)
Definition getPackedParityFromParity (parity z : Z) : option Z :=
  Word.shl PackedParity_bits (Word.wrap PackedParity_bits parity) (Word.umul 5 z).

Section RowValue.

(** [RowValue] is declared in Keccak-fParts.h: an unsigned integer type
    that holds a row of 5 bits.  Its width is a parameter here. *)
Variable RowValue_bits : Z.

(** [return (parity >> (5*z)) & 0x1F;], converted to [RowValue]. *)
Definition getParityFromPackedParity (parity z : Z) : option Z :=
  t <- Word.shr PackedParity_bits parity (Word.umul 5 z);
  Some (Word.wrap RowValue_bits (Z.land t 0x1F)).

End RowValue.

(** ** The functions the header only declares *)

(** Modelled from the spec: the body of [packParity], of which the
    header has the declaration only.  The packed words of [parity[z]] at
    slot [z] are OR-combined, for every [z]. *)
Definition packParity (parity : list Z) : option Z :=
  for_loop (length parity)
    (fun z result =>
       p <- parity !! z;
       w <- getPackedParityFromParity p (Z.of_nat z);
       Some (Z.lor result w))
    0.

(** Modelled from the spec: the body of [unpackParity], of which the
    header has the declaration only.  The output is resized to
    [laneSize] and slot [z] is written at index [z], for [z] in
    [0, laneSize). *)
Definition unpackParity (RowValue_bits : Z) (packedParity : Z)
    (parity : list Z) (laneSize : nat) : option (list Z) :=
  for_loop laneSize
    (fun z out =>
       v <- getParityFromPackedParity RowValue_bits packedParity (Z.of_nat z);
       vset out z v)
    (resize laneSize 0 parity).

(** Modelled from the spec: [getRowFromSlice] of Keccak-fParts.h.  A
    slice holds the bit of column [x] and row [y] at position [x + 5*y],
    so that row [y] is the 5-bit field at [5*y]. *)
Definition getRowFromSlice (slice : Z) (y : Z) : Z :=
  Z.land (Z.shiftr slice (5 * y)) 0x1F.

(** Modelled from the spec: the body of [getParity(SliceValue)].  The row
    at y=0 XOR the row at y=1 XOR ... XOR the row at y=4. *)
Definition getParity (slice : Z) : Z :=
  Z.lxor (Z.lxor (Z.lxor (Z.lxor (getRowFromSlice slice 0)
                                 (getRowFromSlice slice 1))
                         (getRowFromSlice slice 2))
                 (getRowFromSlice slice 3))
         (getRowFromSlice slice 4).

(** Modelled from the spec: the body of
    [getParity(const vector<SliceValue>&, vector<RowValue>&)].  The
    output is pre-sized by the caller and overwritten by index. *)
Definition getParity_slices (state : list Z) (parity : list Z) : option (list Z) :=
  for_loop (length state)
    (fun z out =>
       slice <- state !! z;
       vset out z (getParity slice))
    parity.

(** Modelled from the spec: [getLaneIndex] of Keccak-fParts.h.  The lane
    of column [x] and row [y] is lane [x + 5*y] of a state given as 25
    lanes, the position of bit (x, y) in a slice. *)
Definition getLaneIndex (x y : nat) : nat := (x + 5 * y)%nat.

(** Modelled from the spec: [LaneValue] of Keccak-fParts.h, a word of up
    to 64 bits. *)
Definition LaneValue_bits : Z := 64.

(** Modelled from the spec: the body of
    [getParity(const vector<LaneValue>&, vector<LaneValue>&)].  For each
    sheet [x], the 5 lanes (y=0..4) sharing that [x] are XOR-reduced into
    entry [x] of the output of 5 lanes. *)
Definition getParity_lanes (state : list Z) (parity : list Z) : option (list Z) :=
  for_loop 5
    (fun x out =>
       lane <- for_loop 5
                 (fun y acc =>
                    l <- state !! getLaneIndex x y;
                    Some (Z.lxor acc l))
                 0;
       vset out x lane)
    (resize 5 0 parity).

(** Modelled from the spec: the body of [fromSlicesToSheetsParity].  For
    each [x] in [0,5), for each [z] in [0,L), bit [x] of [paritySlices[z]]
    is extracted and placed at bit position [z] of output lane [x], a
    lane built from zero; the output has 5 lanes. *)
Definition fromSlicesToSheetsParity (paritySlices paritySheets : list Z)
  : option (list Z) :=
  for_loop 5
    (fun x sheets =>
       lane <- for_loop (length paritySlices)
                 (fun z lane =>
                    row <- paritySlices !! z;
                    b <- Word.shl LaneValue_bits
                           (Z.land (Z.shiftr row (Z.of_nat x)) 1) (Z.of_nat z);
                    Some (Z.lor lane b))
                 0;
       vset sheets x lane)
    (resize 5 0 paritySheets).

(** Modelled from the spec: the body of [fromSheetsToSlicesParity].  The
    output is pre-sized to the lane size; for each [z] in [0,L), for each
    [x] in [0,5), bit [z] of [paritySheets[x]] is extracted and placed at
    bit [x] of [paritySlices[z]], a row built from zero. *)
Definition fromSheetsToSlicesParity (paritySheets paritySlices : list Z)
  : option (list Z) :=
  for_loop (length paritySlices)
    (fun z slices =>
       row <- for_loop 5
                (fun x row =>
                   lane <- paritySheets !! x;
                   t <- Word.shr LaneValue_bits lane (Z.of_nat z);
                   Some (Z.lor row (Z.shiftl (Z.land t 1) (Z.of_nat x))))
                0;
       vset slices z row)
    paritySlices.

(** ** Auxiliary notions of the statements *)

(** The 5-bit field of slot [z] of a packed word, as a number. *)
Definition field (packed z : Z) : Z := (packed / 2 ^ (5 * z)) mod 32.

(** The XOR of the five bits of a column, [b y] being its bit in row [y]. *)
Definition column_parity (b : nat -> bool) : bool :=
  xorb (xorb (xorb (xorb (b 0%nat) (b 1%nat)) (b 2%nat)) (b 3%nat)) (b 4%nat).

(** The parts of a decomposition, XORed and ORed. *)
Fixpoint xor_all (parts : list Z) : Z :=
  match parts with
  | [] => 0
  | a :: rest => Z.lxor a (xor_all rest)
  end.

Fixpoint or_all (parts : list Z) : Z :=
  match parts with
  | [] => 0
  | a :: rest => Z.lor a (or_all rest)
  end.

(** No two parts have a bit in common. *)
Fixpoint bit_disjoint (parts : list Z) : Prop :=
  match parts with
  | [] => True
  | a :: rest => Forall (fun b => Z.land a b = 0) rest /\ bit_disjoint rest
  end.

(** Lane [x] of [sheets] collects bit [x] of every row of [slices]. *)
Definition sheets_of_slices (slices sheets : list Z) : Prop :=
  length sheets = 5%nat /\
  forall x, (x < 5)%nat ->
    exists lane, sheets !! x = Some lane /\
      forall i, 0 <= i ->
        Z.testbit lane i
        = (i <? Z.of_nat (length slices))
          && Z.testbit (default 0 (slices !! Z.to_nat i)) (Z.of_nat x).

(** Row [z] of [slices] collects bit [z] of each of the five lanes. *)
Definition slices_of_sheets (sheets slices : list Z) : Prop :=
  forall z, (z < length slices)%nat ->
    exists row, slices !! z = Some row /\
      forall j, 0 <= j ->
        Z.testbit row j
        = (j <? 5) && Z.testbit (default 0 (sheets !! Z.to_nat j)) (Z.of_nat z).

(** A state given as slices and as 25 lanes: bit [x + 5*y] of slice [z]
    is bit [z] of the lane of [(x, y)]. *)
Definition same_state (slices lanes : list Z) : bool :=
  forallb (fun x =>
    forallb (fun y =>
      forallb (fun z =>
        eqb (Z.testbit (default 0 (slices !! z)) (Z.of_nat (x + 5 * y)))
            (Z.testbit (default 0 (lanes !! getLaneIndex x y)) (Z.of_nat z)))
        (seq 0 (length slices)))
      (seq 0 5))
    (seq 0 5).

(** ** Arithmetic of the shift amounts and of the fields *)

Lemma umul_5_small z : 0 <= z <= 12 -> Word.umul 5 z = 5 * z.
Proof.
  intros Hz. unfold Word.umul, Word.wrap.
  apply Z.mod_small. change (2 ^ 32) with 4294967296. lia.
Qed.

Lemma wrap_small w a : 0 <= a < 2 ^ w -> Word.wrap w a = a.
Proof. intros H. unfold Word.wrap. now apply Z.mod_small. Qed.

Lemma wrap_range w a : 0 <= w -> 0 <= Word.wrap w a < 2 ^ w.
Proof.
  intros Hw. unfold Word.wrap. apply Z.mod_pos_bound.
  apply Z.pow_pos_nonneg; lia.
Qed.

Lemma testbit_wrap w a i :
  0 <= w -> Z.testbit (Word.wrap w a) i = (i <? w) && Z.testbit a i.
Proof. intros Hw. unfold Word.wrap. now apply Z.testbit_mod_pow2. Qed.

Lemma land_31_range t : 0 <= Z.land t 31 <= 31.
Proof.
  change (Z.land t 31) with (Z.land t (Z.ones 5)). rewrite Z.land_ones by lia.
  pose proof (Z.mod_pos_bound t (2 ^ 5) eq_refl) as H.
  change (2 ^ 5) with 32 in *. lia.
Qed.

Lemma row_wrap_land rb t : 5 <= rb -> Word.wrap rb (Z.land t 31) = Z.land t 31.
Proof.
  intros Hrb. apply wrap_small.
  pose proof (land_31_range t) as H.
  assert (2 ^ 5 <= 2 ^ rb) by (apply Z.pow_le_mono_r; lia).
  change (2 ^ 5) with 32 in *. lia.
Qed.

Lemma land_shiftr_field packed z :
  0 <= z -> Z.land (Z.shiftr packed (5 * z)) 31 = field packed z.
Proof.
  intros Hz. unfold field.
  change 31 with (Z.ones 5). rewrite Z.land_ones by lia. change (2 ^ 5) with 32.
  rewrite Z.shiftr_div_pow2 by lia. reflexivity.
Qed.

Lemma testbit_field packed z j :
  0 <= z -> 0 <= j ->
  Z.testbit (field packed z) j = (j <? 5) && Z.testbit packed (5 * z + j).
Proof.
  intros Hz Hj. unfold field. change 32 with (2 ^ 5).
  rewrite Z.testbit_mod_pow2 by lia.
  rewrite Z.div_pow2_bits by lia.
  now rewrite (Z.add_comm j).
Qed.

Lemma row_testbit_high v j : 0 <= v <= 31 -> 5 <= j -> Z.testbit v j = false.
Proof.
  intros Hv Hj. destruct (Z.eq_dec v 0) as [->|Hne].
  - apply Z.testbit_0_l.
  - apply Z.bits_above_log2; [lia|].
    assert (Z.log2 v < 5); [|lia].
    apply Z.log2_lt_pow2; [lia|]. change (2 ^ 5) with 32. lia.
Qed.

Lemma shiftl_row_range v s : 0 <= v <= 31 -> 0 <= s -> 0 <= Z.shiftl v s < 2 ^ (s + 5).
Proof.
  intros Hv Hs. rewrite Z.shiftl_mul_pow2 by lia.
  rewrite Z.pow_add_r by lia. change (2 ^ 5) with 32.
  assert (0 < 2 ^ s) by (apply Z.pow_pos_nonneg; lia). nia.
Qed.

(** What the two inline functions compute where the shift is defined. *)

Lemma unpack_is_field rb packed z :
  5 <= rb -> 0 <= z <= 12 ->
  getParityFromPackedParity rb packed z = Some (field packed z).
Proof.
  intros Hrb Hz. unfold getParityFromPackedParity, Word.shr, PackedParity_bits.
  rewrite umul_5_small by lia.
  destruct (Z.ltb_spec (5 * z) 64) as [_|]; [|lia]. cbn [bind].
  rewrite row_wrap_land by lia. now rewrite land_shiftr_field by lia.
Qed.

Lemma pack_is_shiftl parity z :
  0 <= parity <= 31 -> 0 <= z <= 11 ->
  getPackedParityFromParity parity z = Some (Z.shiftl parity (5 * z)).
Proof.
  intros Hp Hz. unfold getPackedParityFromParity, Word.shl, PackedParity_bits.
  rewrite umul_5_small by lia.
  destruct (Z.ltb_spec (5 * z) 64) as [_|]; [|lia].
  rewrite (wrap_small 64 parity) by (change (2 ^ 64) with 18446744073709551616; lia).
  rewrite wrap_small; [reflexivity|].
  pose proof (shiftl_row_range parity (5 * z) Hp ltac:(lia)) as H.
  assert (2 ^ (5 * z + 5) <= 2 ^ 64) by (apply Z.pow_le_mono_r; lia). lia.
Qed.

Lemma field_shiftl_same v z : 0 <= v <= 31 -> 0 <= z -> field (Z.shiftl v (5 * z)) z = v.
Proof.
  intros Hv Hz. apply Z.bits_inj'. intros j Hj.
  rewrite testbit_field by lia. rewrite Z.shiftl_spec by lia.
  replace (5 * z + j - 5 * z) with j by lia.
  destruct (Z.ltb_spec j 5); [reflexivity|].
  symmetry. now apply row_testbit_high.
Qed.

Lemma field_shiftl_other v z z' :
  0 <= v <= 31 -> 0 <= z -> 0 <= z' -> z' <> z -> field (Z.shiftl v (5 * z)) z' = 0.
Proof.
  intros Hv Hz Hz' Hne. apply Z.bits_inj'. intros j Hj.
  rewrite testbit_field by lia. rewrite Z.shiftl_spec by lia.
  rewrite Z.testbit_0_l.
  destruct (Z.ltb_spec j 5); [|reflexivity]. cbn [andb].
  destruct (Z_lt_le_dec z' z).
  - apply Z.testbit_neg_r. lia.
  - apply row_testbit_high; lia.
Qed.

Lemma field_lor p q z : 0 <= z -> field (Z.lor p q) z = Z.lor (field p z) (field q z).
Proof.
  intros Hz. apply Z.bits_inj'. intros j Hj.
  rewrite Z.lor_spec, !testbit_field, Z.lor_spec by lia.
  now destruct (j <? 5).
Qed.

Lemma field_range packed z : 0 <= field packed z <= 31.
Proof.
  unfold field. pose proof (Z.mod_pos_bound (packed / 2 ^ (5 * z)) 32 eq_refl). lia.
Qed.

(** ** Loops and vectors *)

Lemma for_loop_inv {St : Type} (I : nat -> St -> Prop) n body (s : St) :
  I 0%nat s ->
  (forall i s', (i < n)%nat -> I i s' ->
     exists s'', body i s' = Some s'' /\ I (S i) s'') ->
  exists s', for_loop n body s = Some s' /\ I n s'.
Proof.
  intros H0 Hstep. induction n as [|n IH]; cbn [for_loop].
  - now exists s.
  - destruct IH as (s1 & -> & H1).
    + intros i s' Hi. apply Hstep. lia.
    + cbn [bind]. apply Hstep; [lia|exact H1].
Qed.

Lemma vset_Some v i x : (i < length v)%nat -> vset v i x = Some (<[i:=x]> v).
Proof.
  intros Hi. unfold vset.
  destruct (Nat.ltb_spec i (length v)); [reflexivity|lia].
Qed.

(** A loop that stores at index [i] a value computed from [i] alone. *)
Lemma for_loop_fill (R : nat -> Z -> Prop) n (f : nat -> option Z) out :
  (n <= length out)%nat ->
  (forall i, (i < n)%nat -> exists v, f i = Some v /\ R i v) ->
  exists out',
    for_loop n (fun i o => v <- f i; vset o i v) out = Some out' /\
    length out' = length out /\
    (forall i, (i < n)%nat -> exists v, out' !! i = Some v /\ R i v) /\
    (forall i, (n <= i)%nat -> out' !! i = out !! i).
Proof.
  intros Hn Hf.
  destruct (for_loop_inv
    (fun i o => length o = length out /\
                (forall k, (k < i)%nat -> exists v, o !! k = Some v /\ R k v) /\
                (forall k, (i <= k)%nat -> o !! k = out !! k))
    n (fun i o => v <- f i; vset o i v) out) as (out' & Hrun & Hinv).
  - split; [reflexivity|]. split; [intros k Hk; lia|reflexivity].
  - intros i o Hi (Hlen & Hlow & Hhigh).
    destruct (Hf i Hi) as (v & -> & Hv). cbn [bind].
    rewrite vset_Some by lia. eexists. split; [reflexivity|].
    split; [now rewrite length_insert|]. split.
    + intros k Hk. destruct (decide (k = i)) as [->|Hne].
      * exists v. split; [|exact Hv]. apply list_lookup_insert_eq. lia.
      * rewrite list_lookup_insert_ne by congruence. apply Hlow. lia.
    + intros k Hk. rewrite list_lookup_insert_ne by lia. apply Hhigh. lia.
  - exists out'. split; [exact Hrun|]. exact Hinv.
Qed.

Lemma list_eq_pointwise (l1 l2 : list Z) :
  length l1 = length l2 ->
  (forall i, (i < length l1)%nat ->
     exists v, l1 !! i = Some v /\ l2 !! i = Some v) ->
  l1 = l2.
Proof.
  intros Hlen H. apply list_eq. intros i.
  destruct (Nat.lt_ge_cases i (length l1)) as [Hi|Hi].
  - destruct (H i Hi) as (v & -> & ->). reflexivity.
  - rewrite !lookup_ge_None_2 by lia. reflexivity.
Qed.

Lemma lookup_Forall (P : Z -> Prop) (l : list Z) i v :
  Forall P l -> l !! i = Some v -> P v.
Proof. intros H Hi. exact (proj1 (Forall_lookup P l) H i v Hi). Qed.

(** ** Packing a vector of rows *)

Lemma packParity_fields (parity : list Z) :
  (length parity <= 12)%nat ->
  Forall (fun p => 0 <= p <= 31) parity ->
  exists w,
    packParity parity = Some w /\
    forall k, (k < length parity)%nat ->
      exists p, parity !! k = Some p /\ field w (Z.of_nat k) = p.
Proof.
  intros Hlen Hrows.
  destruct (for_loop_inv
    (fun z acc => forall k : nat,
       field acc (Z.of_nat k)
       = if (k <? z)%nat then default 0 (parity !! k) else 0)
    (length parity)
    (fun z result =>
       p <- parity !! z;
       w <- getPackedParityFromParity p (Z.of_nat z);
       Some (Z.lor result w))
    0) as (w & Hrun & Hinv).
  - intros k. destruct (Nat.ltb_spec k 0); [lia|].
    unfold field. now rewrite Zdiv_0_l.
  - intros z acc Hz Hacc.
    destruct (lookup_lt_is_Some_2 parity z Hz) as [p Hp]. rewrite Hp. cbn [bind].
    pose proof (lookup_Forall _ _ _ _ Hrows Hp) as Hrow. cbn beta in Hrow.
    rewrite pack_is_shiftl by lia. cbn [bind].
    eexists. split; [reflexivity|]. intros k.
    rewrite field_lor, Hacc by lia.
    destruct (decide (k = z)) as [->|Hne].
    + rewrite field_shiftl_same by lia.
      destruct (Nat.ltb_spec z z); [lia|].
      destruct (Nat.ltb_spec z (S z)); [|lia].
      now rewrite Hp.
    + rewrite field_shiftl_other, Z.lor_0_r by lia.
      destruct (Nat.ltb_spec k z), (Nat.ltb_spec k (S z)); try lia; reflexivity.
  - exists w. split; [exact Hrun|]. intros k Hk.
    destruct (lookup_lt_is_Some_2 parity k Hk) as [p Hp].
    exists p. split; [exact Hp|]. rewrite Hinv.
    destruct (Nat.ltb_spec k (length parity)); [|lia]. now rewrite Hp.
Qed.

Lemma unpackParity_fields rb packed (parity : list Z) (laneSize : nat) :
  5 <= rb -> (laneSize <= 13)%nat ->
  exists out,
    unpackParity rb packed parity laneSize = Some out /\
    length out = laneSize /\
    forall z, (z < laneSize)%nat -> out !! z = Some (field packed (Z.of_nat z)).
Proof.
  intros Hrb Hn. unfold unpackParity.
  destruct (for_loop_fill (fun z v => v = field packed (Z.of_nat z)) laneSize
    (fun z => getParityFromPackedParity rb packed (Z.of_nat z))
    (resize laneSize 0 parity)) as (out & Hrun & Hlen & Hlow & _).
  - now rewrite length_resize.
  - intros z Hz. eexists. split; [|reflexivity].
    apply unpack_is_field; lia.
  - exists out. split; [exact Hrun|]. split.
    + now rewrite Hlen, length_resize.
    + intros z Hz. destruct (Hlow z Hz) as (v & Hv & ->). exact Hv.
Qed.

(** ** The transposition between slices and sheets *)

Lemma testbit_high a n i : 0 <= n -> 0 <= a < 2 ^ n -> n <= i -> Z.testbit a i = false.
Proof.
  intros Hn Ha Hi. rewrite <- (Z.mod_small a (2 ^ n)) by exact Ha.
  apply Z.mod_pow2_bits_high. lia.
Qed.

Lemma testbit_land_1 a i : 0 <= i -> Z.testbit (Z.land a 1) i = (i =? 0) && Z.testbit a i.
Proof.
  intros Hi. change 1 with (Z.ones 1). rewrite Z.land_ones by lia.
  rewrite Z.testbit_mod_pow2 by lia.
  destruct (Z.ltb_spec i 1), (Z.eqb_spec i 0); try lia; reflexivity.
Qed.

(** Bit [x] of [a], moved to position [z]. *)
Lemma testbit_moved_bit a x z i :
  0 <= x -> 0 <= z -> 0 <= i ->
  Z.testbit (Z.shiftl (Z.land (Z.shiftr a x) 1) z) i = (i =? z) && Z.testbit a x.
Proof.
  intros Hx Hz Hi. rewrite Z.shiftl_spec by lia.
  destruct (Z_lt_le_dec i z).
  - rewrite Z.testbit_neg_r by lia.
    destruct (Z.eqb_spec i z); [lia|reflexivity].
  - rewrite testbit_land_1, Z.shiftr_spec by lia.
    destruct (Z.eqb_spec (i - z) 0), (Z.eqb_spec i z);
      try lia; try reflexivity.
    cbn [andb]. now replace (i - z + x) with x by lia.
Qed.

Lemma shl_moved_bit a x z :
  0 <= x -> 0 <= z < 64 ->
  exists b,
    Word.shl LaneValue_bits (Z.land (Z.shiftr a x) 1) z = Some b /\
    forall i, 0 <= i -> Z.testbit b i = (i =? z) && Z.testbit a x.
Proof.
  intros Hx Hz. unfold Word.shl, LaneValue_bits.
  destruct (Z.ltb_spec z 64); [|lia].
  eexists. split; [reflexivity|]. intros i Hi.
  rewrite testbit_wrap, testbit_moved_bit by lia.
  destruct (Z.ltb_spec i 64), (Z.eqb_spec i z); try lia; reflexivity.
Qed.

(** The inner loop of [fromSlicesToSheetsParity]: lane [x]. *)
Lemma sheet_lane_bits (paritySlices : list Z) (x : nat) :
  (length paritySlices <= 64)%nat ->
  exists lane,
    for_loop (length paritySlices)
      (fun z lane =>
         row <- paritySlices !! z;
         b <- Word.shl LaneValue_bits
                (Z.land (Z.shiftr row (Z.of_nat x)) 1) (Z.of_nat z);
         Some (Z.lor lane b))
      0 = Some lane /\
    forall i, 0 <= i ->
      Z.testbit lane i
      = (i <? Z.of_nat (length paritySlices))
        && Z.testbit (default 0 (paritySlices !! Z.to_nat i)) (Z.of_nat x).
Proof.
  intros Hlen.
  apply (for_loop_inv
    (fun z lane => forall i, 0 <= i ->
       Z.testbit lane i
       = (i <? Z.of_nat z)
         && Z.testbit (default 0 (paritySlices !! Z.to_nat i)) (Z.of_nat x))).
  - intros i Hi. rewrite Z.testbit_0_l.
    destruct (Z.ltb_spec i (Z.of_nat 0)); [lia|reflexivity].
  - intros z lane Hz Hlane.
    destruct (lookup_lt_is_Some_2 paritySlices z Hz) as [row Hrow].
    rewrite Hrow. cbn [bind].
    destruct (shl_moved_bit row (Z.of_nat x) (Z.of_nat z)) as (b & -> & Hb);
      [lia|lia|]. cbn [bind].
    eexists. split; [reflexivity|]. intros i Hi.
    rewrite Z.lor_spec, Hlane, Hb by lia.
    destruct (Z.eqb_spec i (Z.of_nat z)) as [->|Hne].
    + rewrite Nat2Z.id, Hrow. cbn [from_option id].
      destruct (Z.ltb_spec (Z.of_nat z) (Z.of_nat z)); [lia|].
      destruct (Z.ltb_spec (Z.of_nat z) (Z.of_nat (S z))); [|lia].
      reflexivity.
    + rewrite orb_false_r.
      destruct (Z.ltb_spec i (Z.of_nat z)), (Z.ltb_spec i (Z.of_nat (S z)));
        try lia; reflexivity.
Qed.

(** The inner loop of [fromSheetsToSlicesParity]: the row of slice [z]. *)
Lemma slice_row_bits (paritySheets : list Z) (z : nat) :
  (5 <= length paritySheets)%nat -> (z < 64)%nat ->
  exists row,
    for_loop 5
      (fun x row =>
         lane <- paritySheets !! x;
         t <- Word.shr LaneValue_bits lane (Z.of_nat z);
         Some (Z.lor row (Z.shiftl (Z.land t 1) (Z.of_nat x))))
      0 = Some row /\
    forall j, 0 <= j ->
      Z.testbit row j
      = (j <? 5) && Z.testbit (default 0 (paritySheets !! Z.to_nat j)) (Z.of_nat z).
Proof.
  intros Hlen Hz.
  apply (for_loop_inv
    (fun x row => forall j, 0 <= j ->
       Z.testbit row j
       = (j <? Z.of_nat x)
         && Z.testbit (default 0 (paritySheets !! Z.to_nat j)) (Z.of_nat z))
    5).
  - intros j Hj. rewrite Z.testbit_0_l.
    destruct (Z.ltb_spec j (Z.of_nat 0)); [lia|reflexivity].
  - intros x row Hx Hrow.
    destruct (lookup_lt_is_Some_2 paritySheets x ltac:(lia)) as [lane Hlane].
    rewrite Hlane. cbn [bind]. unfold Word.shr, LaneValue_bits.
    destruct (Z.ltb_spec (Z.of_nat z) 64); [|lia]. cbn [bind].
    eexists. split; [reflexivity|]. intros j Hj.
    rewrite Z.lor_spec, Hrow, testbit_moved_bit by lia.
    destruct (Z.eqb_spec j (Z.of_nat x)) as [->|Hne].
    + rewrite Nat2Z.id, Hlane. cbn [from_option id].
      destruct (Z.ltb_spec (Z.of_nat x) (Z.of_nat x)); [lia|].
      destruct (Z.ltb_spec (Z.of_nat x) (Z.of_nat (S x))); [|lia].
      reflexivity.
    + rewrite orb_false_r.
      destruct (Z.ltb_spec j (Z.of_nat x)), (Z.ltb_spec j (Z.of_nat (S x)));
        try lia; reflexivity.
Qed.

Lemma fromSlicesToSheetsParity_bits (paritySlices paritySheets : list Z) :
  (length paritySlices <= 64)%nat ->
  exists sheets,
    fromSlicesToSheetsParity paritySlices paritySheets = Some sheets /\
    sheets_of_slices paritySlices sheets.
Proof.
  intros Hlen. unfold fromSlicesToSheetsParity.
  destruct (for_loop_fill
    (fun x lane => forall i, 0 <= i ->
       Z.testbit lane i
       = (i <? Z.of_nat (length paritySlices))
         && Z.testbit (default 0 (paritySlices !! Z.to_nat i)) (Z.of_nat x))
    5
    (fun x =>
       for_loop (length paritySlices)
         (fun z lane =>
            row <- paritySlices !! z;
            b <- Word.shl LaneValue_bits
                   (Z.land (Z.shiftr row (Z.of_nat x)) 1) (Z.of_nat z);
            Some (Z.lor lane b))
         0)
    (resize 5 0 paritySheets)) as (sheets & Hrun & Hlen5 & Hlow & _).
  - now rewrite length_resize.
  - intros x _. now apply sheet_lane_bits.
  - exists sheets. split; [exact Hrun|]. split.
    + now rewrite Hlen5, length_resize.
    + exact Hlow.
Qed.

Lemma fromSheetsToSlicesParity_bits (paritySheets paritySlices : list Z) :
  (5 <= length paritySheets)%nat -> (length paritySlices <= 64)%nat ->
  exists slices,
    fromSheetsToSlicesParity paritySheets paritySlices = Some slices /\
    length slices = length paritySlices /\
    slices_of_sheets paritySheets slices.
Proof.
  intros Hlen5 Hlen. unfold fromSheetsToSlicesParity.
  destruct (for_loop_fill
    (fun z row => forall j, 0 <= j ->
       Z.testbit row j
       = (j <? 5)
         && Z.testbit (default 0 (paritySheets !! Z.to_nat j)) (Z.of_nat z))
    (length paritySlices)
    (fun z =>
       for_loop 5
         (fun x row =>
            lane <- paritySheets !! x;
            t <- Word.shr LaneValue_bits lane (Z.of_nat z);
            Some (Z.lor row (Z.shiftl (Z.land t 1) (Z.of_nat x))))
         0)
    paritySlices) as (slices & Hrun & Hlens & Hlow & _).
  - reflexivity.
  - intros z Hz. apply slice_row_bits; lia.
  - exists slices. split; [exact Hrun|]. split; [exact Hlens|].
    intros z Hz. apply Hlow. lia.
Qed.

(** ** The parity of a slice *)

Lemma getRowFromSlice_field slice y : 0 <= y -> getRowFromSlice slice y = field slice y.
Proof. intros Hy. unfold getRowFromSlice. now apply land_shiftr_field. Qed.

Lemma testbit_getParity slice x :
  0 <= x ->
  Z.testbit (getParity slice) x
  = (x <? 5) && column_parity (fun y => Z.testbit slice (x + 5 * Z.of_nat y)).
Proof.
  intros Hx. unfold getParity, column_parity.
  rewrite !getRowFromSlice_field, !Z.lxor_spec, !testbit_field by lia.
  rewrite !(Z.add_comm x). cbn [Z.of_nat Pos.of_succ_nat Pos.succ Z.mul].
  destruct (x <? 5); reflexivity.
Qed.

Lemma row_of_high_bits a :
  0 <= a -> (forall i, 5 <= i -> Z.testbit a i = false) -> 0 <= a <= 31.
Proof.
  intros Ha Hhigh. assert (a = a mod 2 ^ 5) as Hmod.
  { apply Z.bits_inj'. intros i Hi. rewrite Z.testbit_mod_pow2 by lia.
    destruct (Z.ltb_spec i 5); [reflexivity|]. now apply Hhigh. }
  pose proof (Z.mod_pos_bound a (2 ^ 5) eq_refl) as H.
  change (2 ^ 5) with 32 in *. lia.
Qed.

Lemma getParity_range slice : 0 <= getParity slice <= 31.
Proof.
  apply row_of_high_bits.
  - unfold getParity, getRowFromSlice. rewrite !Z.lxor_nonneg.
    pose proof (fun t => proj1 (land_31_range t)). intuition auto.
  - intros i Hi. rewrite testbit_getParity by lia.
    destruct (Z.ltb_spec i 5); [lia|reflexivity].
Qed.

Lemma getParity_0 : getParity 0 = 0.
Proof. reflexivity. Qed.

Lemma getParity_lxor a b : getParity (Z.lxor a b) = Z.lxor (getParity a) (getParity b).
Proof.
  apply Z.bits_inj'. intros x Hx.
  rewrite Z.lxor_spec, !testbit_getParity by lia. unfold column_parity.
  rewrite !Z.lxor_spec. destruct (x <? 5); [cbn [andb]; btauto|reflexivity].
Qed.

Lemma getParity_xor_all parts :
  getParity (xor_all parts) = xor_all (map getParity parts).
Proof.
  induction parts as [|a parts IH]; [reflexivity|].
  cbn [xor_all map]. now rewrite getParity_lxor, IH.
Qed.

Lemma land_or_all a parts :
  Forall (fun b => Z.land a b = 0) parts -> Z.land a (or_all parts) = 0.
Proof.
  induction 1 as [|b parts Hb _ IH]; cbn [or_all].
  - apply Z.land_0_r.
  - now rewrite Z.land_lor_distr_r, Hb, IH.
Qed.

Lemma or_all_disjoint parts : bit_disjoint parts -> or_all parts = xor_all parts.
Proof.
  induction parts as [|a parts IH]; [reflexivity|].
  intros [Ha Hrest]. cbn [or_all xor_all]. rewrite <- IH by exact Hrest.
  symmetry. apply Z.lxor_lor. now apply land_or_all.
Qed.

(** ** The parity of a state, by slices and by lanes *)

Lemma for_loop_ext {St : Type} n (body body' : nat -> St -> option St) (s : St) :
  (forall i s', (i < n)%nat -> body i s' = body' i s') ->
  for_loop n body s = for_loop n body' s.
Proof.
  intros Hext. induction n as [|n IH]; [reflexivity|]. cbn [for_loop].
  rewrite IH by (intros i s' Hi; apply Hext; lia).
  destruct (for_loop n body' s) as [s1|]; [|reflexivity].
  cbn [bind]. apply Hext. lia.
Qed.

Lemma getParity_slices_rows (state parity : list Z) :
  (length state <= length parity)%nat ->
  exists rows,
    getParity_slices state parity = Some rows /\
    length rows = length parity /\
    forall z, (z < length state)%nat ->
      exists slice, state !! z = Some slice /\ rows !! z = Some (getParity slice).
Proof.
  intros Hlen. unfold getParity_slices.
  rewrite (for_loop_ext _ _
    (fun z out =>
       v <- (slice <- state !! z; Some (getParity slice));
       vset out z v))
    by (intros z out _; destruct (state !! z); reflexivity).
  destruct (for_loop_fill
    (fun z v => exists slice, state !! z = Some slice /\ v = getParity slice)
    (length state)
    (fun z => slice <- state !! z; Some (getParity slice))
    parity Hlen) as (rows & Hrun & Hrowslen & Hlow & _).
  - intros z Hz. destruct (lookup_lt_is_Some_2 state z Hz) as [slice Hslice].
    rewrite Hslice. cbn [bind]. eexists. split; [reflexivity|]. now exists slice.
  - exists rows. split; [exact Hrun|]. split; [exact Hrowslen|].
    intros z Hz. destruct (Hlow z Hz) as (v & Hv & slice & Hslice & ->).
    now exists slice.
Qed.

(** The inner loop of [getParity] on lanes: the parity of sheet [x]. *)
Lemma sheet_parity_bits (state : list Z) (x : nat) :
  (25 <= length state)%nat -> (x < 5)%nat ->
  exists lane,
    for_loop 5
      (fun y acc =>
         l <- state !! getLaneIndex x y;
         Some (Z.lxor acc l))
      0 = Some lane /\
    forall i,
      Z.testbit lane i
      = column_parity
          (fun y => Z.testbit (default 0 (state !! getLaneIndex x y)) i).
Proof.
  intros Hlen Hx. unfold getLaneIndex.
  destruct (lookup_lt_is_Some_2 state (x + 5 * 0) ltac:(lia)) as [l0 H0].
  destruct (lookup_lt_is_Some_2 state (x + 5 * 1) ltac:(lia)) as [l1 H1].
  destruct (lookup_lt_is_Some_2 state (x + 5 * 2) ltac:(lia)) as [l2 H2].
  destruct (lookup_lt_is_Some_2 state (x + 5 * 3) ltac:(lia)) as [l3 H3].
  destruct (lookup_lt_is_Some_2 state (x + 5 * 4) ltac:(lia)) as [l4 H4].
  cbn [for_loop]. rewrite H0, H1, H2, H3, H4. cbn [bind].
  eexists. split; [reflexivity|]. intros i. unfold column_parity.
  rewrite H0, H1, H2, H3, H4. cbn [from_option id].
  rewrite !Z.lxor_spec, Z.testbit_0_l. reflexivity.
Qed.

Lemma getParity_lanes_bits (state parity : list Z) :
  (25 <= length state)%nat ->
  exists sheets,
    getParity_lanes state parity = Some sheets /\
    length sheets = 5%nat /\
    forall x, (x < 5)%nat ->
      exists lane, sheets !! x = Some lane /\
        forall i,
          Z.testbit lane i
          = column_parity
              (fun y => Z.testbit (default 0 (state !! getLaneIndex x y)) i).
Proof.
  intros Hlen. unfold getParity_lanes.
  destruct (for_loop_fill
    (fun x lane => forall i,
       Z.testbit lane i
       = column_parity
           (fun y => Z.testbit (default 0 (state !! getLaneIndex x y)) i))
    5
    (fun x =>
       for_loop 5
         (fun y acc =>
            l <- state !! getLaneIndex x y;
            Some (Z.lxor acc l))
         0)
    (resize 5 0 parity)) as (sheets & Hrun & Hlen5 & Hlow & _).
  - now rewrite length_resize.
  - intros x Hx. now apply sheet_parity_bits.
  - exists sheets. split; [exact Hrun|]. split.
    + now rewrite Hlen5, length_resize.
    + exact Hlow.
Qed.

Lemma same_state_bits (slices lanes : list Z) (x y z : nat) :
  same_state slices lanes = true ->
  (x < 5)%nat -> (y < 5)%nat -> (z < length slices)%nat ->
  Z.testbit (default 0 (slices !! z)) (Z.of_nat (x + 5 * y))
  = Z.testbit (default 0 (lanes !! getLaneIndex x y)) (Z.of_nat z).
Proof.
  unfold same_state. intros H Hx Hy Hz.
  pose proof (proj1 (forallb_forall _ _) H x ltac:(apply in_seq; lia)) as H1.
  cbv beta in H1.
  pose proof (proj1 (forallb_forall _ _) H1 y ltac:(apply in_seq; lia)) as H2.
  cbv beta in H2.
  pose proof (proj1 (forallb_forall _ _) H2 z ltac:(apply in_seq; lia)) as H3.
  cbv beta in H3. now apply eqb_prop.
Qed.

Lemma column_parity_ext (f g : nat -> bool) :
  (forall y, (y < 5)%nat -> f y = g y) -> column_parity f = column_parity g.
Proof.
  intros H. unfold column_parity.
  now rewrite (H 0%nat), (H 1%nat), (H 2%nat), (H 3%nat), (H 4%nat) by lia.
Qed.

(** ** Further arithmetic of packed words *)

Lemma field_lxor p q z : 0 <= z -> field (Z.lxor p q) z = Z.lxor (field p z) (field q z).
Proof.
  intros Hz. apply Z.bits_inj'. intros j Hj.
  rewrite Z.lxor_spec, !testbit_field, Z.lxor_spec by lia.
  now destruct (j <? 5).
Qed.

Lemma field_shiftl_row v z z' :
  0 <= v <= 31 -> 0 <= z -> 0 <= z' ->
  field (Z.shiftl v (5 * z)) z' = if z' =? z then v else 0.
Proof.
  intros Hv Hz Hz'. destruct (Z.eqb_spec z' z) as [->|Hne].
  - now apply field_shiftl_same.
  - now apply field_shiftl_other.
Qed.

(** Packing without a bound on the row: the shifted value, truncated to
    the 64 bits of the word. *)
Lemma pack_is_wrap_shiftl parity z :
  0 <= parity < 2 ^ 64 -> 0 <= z <= 12 ->
  getPackedParityFromParity parity z
  = Some (Word.wrap 64 (Z.shiftl parity (5 * z))).
Proof.
  intros Hp Hz. unfold getPackedParityFromParity, Word.shl, PackedParity_bits.
  rewrite umul_5_small by lia.
  destruct (Z.ltb_spec (5 * z) 64) as [_|]; [|lia].
  now rewrite (wrap_small 64 parity) by exact Hp.
Qed.

Lemma testbit_shiftl_row v s i :
  0 <= v <= 31 -> 0 <= s -> 0 <= i ->
  Z.testbit (Z.shiftl v s) i = (s <=? i) && (i <? s + 5) && Z.testbit v (i - s).
Proof.
  intros Hv Hs Hi. rewrite Z.shiftl_spec by lia.
  destruct (Z.leb_spec s i); cbn [andb].
  - destruct (Z.ltb_spec i (s + 5)); cbn [andb]; [reflexivity|].
    apply row_testbit_high; lia.
  - apply Z.testbit_neg_r. lia.
Qed.

Lemma row_lt_word v : 0 <= v <= 31 -> 0 <= v < 2 ^ 64.
Proof. intros Hv. change (2 ^ 64) with 18446744073709551616. lia. Qed.

Lemma horner_div v r : 0 <= v <= 31 -> (v + 32 * r) / 32 = r.
Proof.
  intros Hv. rewrite (Z.mul_comm 32 r), Z.div_add by lia.
  rewrite Z.div_small by lia. lia.
Qed.

Lemma horner_mod v r : 0 <= v <= 31 -> (v + 32 * r) mod 32 = v.
Proof.
  intros Hv. rewrite (Z.mul_comm 32 r), Z.mod_add by lia.
  apply Z.mod_small. lia.
Qed.

(** ** The inline functions: claims on the code *)

(** C4.  For every row value [parity] at most 31 and every [z] in [0,8),
    [getPackedParityFromParity parity z] returns [parity] left-shifted by
    [5*z]: a 64-bit word whose bits [5z, 5z+5) hold [parity] and whose
    other bits are all zero. *)
Theorem getPackedParityFromParity_shifted (parity z : Z) :
  0 <= parity <= 31 -> 0 <= z < 8 ->
  exists w,
    getPackedParityFromParity parity z = Some w /\
    w = Z.shiftl parity (5 * z) /\
    w = parity * 2 ^ (5 * z) /\
    0 <= w < 2 ^ 64 /\
    forall i, 0 <= i ->
      Z.testbit w i =
      (5 * z <=? i) && (i <? 5 * z + 5) && Z.testbit parity (i - 5 * z).
Proof.
  intros Hp Hz. exists (Z.shiftl parity (5 * z)).
  split; [apply pack_is_shiftl; lia|].
  split; [reflexivity|].
  split; [apply Z.shiftl_mul_pow2; lia|].
  split.
  - pose proof (shiftl_row_range parity (5 * z) Hp ltac:(lia)) as H.
    assert (2 ^ (5 * z + 5) <= 2 ^ 64) by (apply Z.pow_le_mono_r; lia). lia.
  - intros i Hi. rewrite Z.shiftl_spec by lia.
    destruct (Z.leb_spec (5 * z) i); cbn [andb].
    + destruct (Z.ltb_spec i (5 * z + 5)); cbn [andb]; [reflexivity|].
      apply row_testbit_high; lia.
    + apply Z.testbit_neg_r. lia.
Qed.

Lemma getPackedParityFromParity_shifted_witness :
  exists w, getPackedParityFromParity 5 2 = Some w /\ w = 5120.
Proof.
  destruct (getPackedParityFromParity_shifted 5 2 ltac:(lia) ltac:(lia))
    as (w & Hw & _ & Hmul & _).
  exists w. split; [exact Hw|exact Hmul].
Defined.

(** C5.  For every 64-bit packed word and every slot index [z] (any [z]
    for which the shift by [5*z] is defined, so every [z] up to 12),
    [getParityFromPackedParity packed z] returns
    [(packed >> 5*z) & 0x1F], the 5-bit field stored for slot [z]: bit
    [j] of the result is bit [5z+j] of the word for [j < 5], and zero
    above. *)
Theorem getParityFromPackedParity_field_of_slot (rb packed z : Z) :
  5 <= rb -> 0 <= packed < 2 ^ 64 -> 0 <= z <= 12 ->
  getParityFromPackedParity rb packed z
    = Some (Z.land (Z.shiftr packed (5 * z)) 0x1F) /\
  Z.land (Z.shiftr packed (5 * z)) 0x1F = (packed / 2 ^ (5 * z)) mod 32 /\
  forall j, 0 <= j ->
    Z.testbit (Z.land (Z.shiftr packed (5 * z)) 0x1F) j
    = (j <? 5) && Z.testbit packed (5 * z + j).
Proof.
  intros Hrb Hp Hz. rewrite land_shiftr_field by lia.
  split; [now apply unpack_is_field|].
  split; [reflexivity|].
  intros j Hj. apply testbit_field; lia.
Qed.

Lemma getParityFromPackedParity_field_of_slot_witness :
  getParityFromPackedParity 8 5217 2 = Some 5.
Proof.
  exact (proj1 (getParityFromPackedParity_field_of_slot 8 5217 2
                  ltac:(lia) ltac:(lia) ltac:(lia))).
Defined.

(** C6.  For every [z] in [0,8) and every value [v] in [0,31], unpacking
    slot [z] of the word produced by packing [v] at slot [z] returns [v],
    and unpacking any other slot [z'] in [0,8) of that word returns 0. *)
Theorem unpack_pack_single_slot (rb v z : Z) :
  5 <= rb -> 0 <= z < 8 -> 0 <= v <= 31 ->
  exists w,
    getPackedParityFromParity v z = Some w /\
    getParityFromPackedParity rb w z = Some v /\
    forall z', 0 <= z' < 8 -> z' <> z ->
      getParityFromPackedParity rb w z' = Some 0.
Proof.
  intros Hrb Hz Hv. exists (Z.shiftl v (5 * z)).
  split; [apply pack_is_shiftl; lia|].
  split.
  - rewrite unpack_is_field by lia.
    now rewrite field_shiftl_same by lia.
  - intros z' Hz' Hne.
    rewrite unpack_is_field by lia.
    now rewrite field_shiftl_other by lia.
Qed.

Lemma unpack_pack_single_slot_witness :
  exists w,
    getPackedParityFromParity 21 3 = Some w /\
    getParityFromPackedParity 8 w 3 = Some 21 /\
    getParityFromPackedParity 8 w 4 = Some 0.
Proof.
  destruct (unpack_pack_single_slot 8 21 3 ltac:(lia) ltac:(lia) ltac:(lia))
    as (w & Hpack & Hsame & Hother).
  exists w. split; [exact Hpack|]. split; [exact Hsame|].
  apply Hother; lia.
Defined.

(** C9.  For every 64-bit packed word and every slot index [z] at most
    12 (so that [5*z] is a defined shift amount),
    [getParityFromPackedParity] returns a value in [0,31], whether or not
    the word was produced by a valid pack. *)
Theorem getParityFromPackedParity_range (rb packed z : Z) :
  5 <= rb -> 0 <= packed < 2 ^ 64 -> 0 <= z <= 12 ->
  exists v, getParityFromPackedParity rb packed z = Some v /\ 0 <= v <= 31.
Proof.
  intros Hrb Hp Hz. exists (field packed z).
  split; [now apply unpack_is_field|apply field_range].
Qed.

Lemma getParityFromPackedParity_range_witness :
  exists v,
    getParityFromPackedParity 8 18446744073709551615 12 = Some v /\
    0 <= v <= 31.
Proof.
  apply (getParityFromPackedParity_range 8 18446744073709551615 12);
    [lia|split; [lia|reflexivity]|lia].
Defined.

(** C10.  Single-slot packing and unpacking are XOR-homomorphisms: for
    every slot index [z] (any [z] whose shift amount [5*z] is defined),
    all row values [a] and [b] and all 64-bit words [p] and [q], packing
    [a XOR b] at [z] gives the XOR of the words packed from [a] and from
    [b], and unpacking slot [z] of [p XOR q] gives the XOR of the values
    unpacked from [p] and from [q]. *)
Theorem pack_unpack_xor_homomorphism (rb a b p q z : Z) :
  0 <= rb ->
  0 <= a < 2 ^ rb -> 0 <= b < 2 ^ rb ->
  0 <= p < 2 ^ 64 -> 0 <= q < 2 ^ 64 ->
  Word.umul 5 z < 64 ->
  (exists wa wb,
     getPackedParityFromParity a z = Some wa /\
     getPackedParityFromParity b z = Some wb /\
     getPackedParityFromParity (Z.lxor a b) z = Some (Z.lxor wa wb)) /\
  (exists va vb,
     getParityFromPackedParity rb p z = Some va /\
     getParityFromPackedParity rb q z = Some vb /\
     getParityFromPackedParity rb (Z.lxor p q) z = Some (Z.lxor va vb)).
Proof.
  intros Hrb Ha Hb Hp Hq Hs.
  assert (0 <= Word.umul 5 z) as Hs0
    by (unfold Word.umul; apply wrap_range; lia).
  split.
  - unfold getPackedParityFromParity, Word.shl, PackedParity_bits.
    destruct (Z.ltb_spec (Word.umul 5 z) 64) as [_|]; [|lia].
    do 2 eexists. split; [reflexivity|]. split; [reflexivity|].
    f_equal. apply Z.bits_inj'. intros i Hi.
    rewrite Z.lxor_spec, !testbit_wrap, !Z.shiftl_spec by lia.
    destruct (Z.ltb_spec i 64); cbn [andb]; [|reflexivity].
    destruct (Z_lt_le_dec (i - Word.umul 5 z) 0).
    + now rewrite !Z.testbit_neg_r by lia.
    + rewrite !testbit_wrap, Z.lxor_spec by lia.
      now destruct (i - Word.umul 5 z <? 64).
  - unfold getParityFromPackedParity, Word.shr, PackedParity_bits.
    destruct (Z.ltb_spec (Word.umul 5 z) 64) as [_|]; [|lia]. cbn [bind].
    do 2 eexists. split; [reflexivity|]. split; [reflexivity|].
    f_equal. apply Z.bits_inj'. intros i Hi.
    rewrite Z.lxor_spec, !testbit_wrap, !Z.land_spec, !Z.shiftr_spec,
      Z.lxor_spec by lia.
    destruct (i <? rb), (Z.testbit 31 i),
      (Z.testbit p (i + Word.umul 5 z)), (Z.testbit q (i + Word.umul 5 z));
      reflexivity.
Qed.

Lemma pack_unpack_xor_homomorphism_witness :
  getPackedParityFromParity (Z.lxor 21 7) 3 = Some 589824 /\
  getParityFromPackedParity 8 (Z.lxor 5217 1023) 1 = Some 28.
Proof.
  destruct (pack_unpack_xor_homomorphism 8 21 7 5217 1023 3
              ltac:(lia) ltac:(split; [lia|reflexivity])
              ltac:(split; [lia|reflexivity]) ltac:(split; [lia|reflexivity])
              ltac:(split; [lia|reflexivity]) ltac:(reflexivity))
    as [(wa & wb & Ha & Hb & Hab) _].
  destruct (pack_unpack_xor_homomorphism 8 21 7 5217 1023 1
              ltac:(lia) ltac:(split; [lia|reflexivity])
              ltac:(split; [lia|reflexivity]) ltac:(split; [lia|reflexivity])
              ltac:(split; [lia|reflexivity]) ltac:(reflexivity))
    as [_ (va & vb & Hp & Hq & Hpq)].
  split.
  - rewrite Hab. vm_compute in Ha, Hb.
    injection Ha as <-. injection Hb as <-. reflexivity.
  - rewrite Hpq. vm_compute in Hp, Hq.
    injection Hp as <-. injection Hq as <-. reflexivity.
Defined.

(** ** The vector functions: claims on the functions modelled from the spec *)

(** C2.  For every L in [1,8] and every sequence of L row values each in
    [0,31], packing the sequence with [packParity] and unpacking the
    result with [unpackParity] at laneSize L gives back exactly the
    sequence, whatever the output vector held before. *)
Theorem packParity_unpackParity_roundtrip (rb : Z) (rows out : list Z) :
  5 <= rb ->
  (1 <= length rows <= 8)%nat ->
  Forall (fun v => 0 <= v <= 31) rows ->
  exists packed,
    packParity rows = Some packed /\
    unpackParity rb packed out (length rows) = Some rows.
Proof.
  intros Hrb Hlen Hrows.
  destruct (packParity_fields rows ltac:(lia) Hrows) as (packed & Hpack & Hfields).
  exists packed. split; [exact Hpack|].
  destruct (unpackParity_fields rb packed out (length rows) Hrb ltac:(lia))
    as (res & -> & Hreslen & Hres).
  f_equal. apply list_eq_pointwise; [exact Hreslen|].
  intros z Hz. rewrite Hreslen in Hz.
  destruct (Hfields z Hz) as (p & Hp & Hfield).
  exists p. split; [|exact Hp]. now rewrite Hres, Hfield.
Qed.

Lemma packParity_unpackParity_roundtrip_witness :
  exists packed,
    packParity [1; 3; 5; 0] = Some packed /\
    unpackParity 8 packed [] 4 = Some [1; 3; 5; 0].
Proof.
  apply (packParity_unpackParity_roundtrip 8 [1; 3; 5; 0] []).
  - lia.
  - cbn [length]. lia.
  - repeat constructor; lia.
Defined.

(** C1.  For every lane size L up to 64 (so for every L in
    {1,2,4,8,16,32,64}) and every parity-as-slices vector P of length L
    whose elements are all at most 31, [fromSlicesToSheetsParity] followed
    by [fromSheetsToSlicesParity] gives back P; and for every
    parity-as-sheets vector Q of 5 lanes each confined to the low L bits,
    [fromSheetsToSlicesParity] followed by [fromSlicesToSheetsParity]
    gives back Q.  The slice output is pre-sized to L. *)
Theorem slices_sheets_inverse (L : nat) (P Q outSlices outSheets : list Z) :
  (L <= 64)%nat ->
  length outSlices = L ->
  (length P = L -> Forall (fun r => 0 <= r <= 31) P ->
   exists sheets,
     fromSlicesToSheetsParity P outSheets = Some sheets /\
     fromSheetsToSlicesParity sheets outSlices = Some P) /\
  (length Q = 5%nat -> Forall (fun l => 0 <= l < 2 ^ Z.of_nat L) Q ->
   exists slices,
     fromSheetsToSlicesParity Q outSlices = Some slices /\
     fromSlicesToSheetsParity slices outSheets = Some Q).
Proof.
  intros HL Hout. split.
  - intros HP Hrows.
    destruct (fromSlicesToSheetsParity_bits P outSheets ltac:(lia))
      as (sheets & Hrun & Hlen5 & Hsheets).
    exists sheets. split; [exact Hrun|].
    destruct (fromSheetsToSlicesParity_bits sheets outSlices ltac:(lia) ltac:(lia))
      as (slices & -> & Hlen & Hslices).
    f_equal. apply list_eq_pointwise; [lia|].
    intros z Hz. destruct (Hslices z Hz) as (row & Hrow & Hbits).
    destruct (lookup_lt_is_Some_2 P z ltac:(lia)) as [p Hp].
    exists row. split; [exact Hrow|]. rewrite Hp. f_equal.
    pose proof (lookup_Forall _ _ _ _ Hrows Hp) as Hrange. cbn beta in Hrange.
    apply Z.bits_inj'. intros j Hj. rewrite Hbits by lia.
    destruct (Z.ltb_spec j 5) as [Hj5|Hj5]; cbn [andb].
    + destruct (Hsheets (Z.to_nat j) ltac:(lia)) as (lane & -> & Hlane).
      cbn [from_option id]. rewrite Hlane by lia.
      rewrite Nat2Z.id, Hp, Z2Nat.id by lia. cbn [from_option id].
      destruct (Z.ltb_spec (Z.of_nat z) (Z.of_nat (length P))); [reflexivity|lia].
    + now rewrite row_testbit_high by lia.
  - intros HQ Hlanes.
    destruct (fromSheetsToSlicesParity_bits Q outSlices ltac:(lia) ltac:(lia))
      as (slices & Hrun & Hlen & Hslices).
    exists slices. split; [exact Hrun|].
    destruct (fromSlicesToSheetsParity_bits slices outSheets ltac:(lia))
      as (sheets & -> & Hlen5 & Hsheets).
    f_equal. apply list_eq_pointwise; [lia|].
    intros x Hx. destruct (Hsheets x ltac:(lia)) as (lane & Hlane & Hbits).
    destruct (lookup_lt_is_Some_2 Q x ltac:(lia)) as [q Hq].
    exists lane. split; [exact Hlane|]. rewrite Hq. f_equal.
    pose proof (lookup_Forall _ _ _ _ Hlanes Hq) as Hrange. cbn beta in Hrange.
    apply Z.bits_inj'. intros i Hi. rewrite Hbits by lia.
    destruct (Z.ltb_spec i (Z.of_nat (length slices))) as [HiL|HiL]; cbn [andb].
    + destruct (Hslices (Z.to_nat i) ltac:(lia)) as (row & -> & Hrow).
      cbn [from_option id]. rewrite Hrow by lia.
      rewrite Nat2Z.id, Hq, Z2Nat.id by lia. cbn [from_option id].
      destruct (Z.ltb_spec (Z.of_nat x) 5); [reflexivity|lia].
    + now rewrite (testbit_high q (Z.of_nat L)) by lia.
Qed.

Lemma slices_sheets_inverse_witness :
  (exists sheets,
     fromSlicesToSheetsParity [1; 3; 5; 0] [] = Some sheets /\
     fromSheetsToSlicesParity sheets [7; 7; 7; 7] = Some [1; 3; 5; 0]) /\
  (exists slices,
     fromSheetsToSlicesParity [7; 2; 4; 0; 9] [7; 7; 7; 7] = Some slices /\
     fromSlicesToSheetsParity slices [] = Some [7; 2; 4; 0; 9]).
Proof.
  destruct (slices_sheets_inverse 4 [1; 3; 5; 0] [7; 2; 4; 0; 9] [7; 7; 7; 7] []
              ltac:(lia) eq_refl) as [HP HQ].
  split.
  - apply HP; [reflexivity|repeat constructor; lia].
  - apply HQ; [reflexivity|]. repeat constructor; cbn; lia.
Defined.

(** C7.  For every 25-bit slice value, [getParity] returns the XOR of the
    slice's five 5-bit rows (the row at y=0 XOR ... XOR the row at y=4),
    a single value in [0,31]: bit [x] of the result is the XOR of the
    bits of column [x].  The parity of the all-zero slice is 0, and the
    parity of a slice is the XOR of the parities of the parts of any
    bit-disjoint decomposition of it. *)
Theorem getParity_xor_of_rows (slice : Z) :
  0 <= slice < 2 ^ 25 ->
  getParity slice
  = Z.lxor (Z.lxor (Z.lxor (Z.lxor (field slice 0) (field slice 1))
                           (field slice 2))
                   (field slice 3))
           (field slice 4) /\
  0 <= getParity slice <= 31 /\
  (forall x, 0 <= x < 5 ->
     Z.testbit (getParity slice) x
     = column_parity (fun y => Z.testbit slice (x + 5 * Z.of_nat y))) /\
  getParity 0 = 0 /\
  (forall parts,
     bit_disjoint parts -> or_all parts = slice ->
     getParity slice = xor_all (map getParity parts)).
Proof.
  intros Hslice. split; [|split; [|split; [|split]]].
  - unfold getParity. now rewrite !getRowFromSlice_field by lia.
  - apply getParity_range.
  - intros x Hx. rewrite testbit_getParity by lia.
    destruct (Z.ltb_spec x 5); [reflexivity|lia].
  - exact getParity_0.
  - intros parts Hdisjoint <-.
    rewrite or_all_disjoint by exact Hdisjoint. apply getParity_xor_all.
Qed.

Lemma getParity_xor_of_rows_witness :
  getParity 5217 = 7 /\
  getParity 5217 = xor_all (map getParity [1; 96; 5120]).
Proof.
  destruct (getParity_xor_of_rows 5217 ltac:(split; [lia|reflexivity]))
    as (Hrows & _ & _ & _ & Hparts).
  split.
  - rewrite Hrows. reflexivity.
  - apply Hparts; [|reflexivity].
    cbn [bit_disjoint]. repeat split; repeat constructor.
Defined.

(** C3.  For every full state given both as a vector of L slices and as
    the corresponding vector of 25 lanes, computing the parity slice per
    slice with [getParity] on slices and converting it with
    [fromSlicesToSheetsParity] yields exactly the 5-lane parity vector
    that [getParity] on lanes computes directly. *)
Theorem parity_by_slices_equals_parity_by_lanes
    (slices lanes outRows outSheets outLanes : list Z) :
  (length slices <= 64)%nat ->
  length lanes = 25%nat ->
  length outRows = length slices ->
  Forall (fun l => 0 <= l < 2 ^ Z.of_nat (length slices)) lanes ->
  same_state slices lanes = true ->
  exists rows sheets,
    getParity_slices slices outRows = Some rows /\
    fromSlicesToSheetsParity rows outSheets = Some sheets /\
    getParity_lanes lanes outLanes = Some sheets.
Proof.
  intros HL H25 Hout Hlanes Hsame.
  destruct (getParity_slices_rows slices outRows ltac:(lia))
    as (rows & Hrows & Hrowslen & Hrow).
  destruct (fromSlicesToSheetsParity_bits rows outSheets ltac:(lia))
    as (sheets & Hsheets & Hlen5 & Hbits).
  destruct (getParity_lanes_bits lanes outLanes ltac:(lia))
    as (sheets' & Hrun' & Hlen5' & Hbits').
  exists rows, sheets. split; [exact Hrows|]. split; [exact Hsheets|].
  rewrite Hrun'. f_equal. apply list_eq_pointwise; [lia|].
  intros x Hx. destruct (Hbits' x ltac:(lia)) as (lane' & Hlane' & Hl').
  destruct (Hbits x ltac:(lia)) as (lane & Hlane & Hl).
  exists lane'. split; [exact Hlane'|]. rewrite Hlane. f_equal.
  apply Z.bits_inj'. intros i Hi. rewrite Hl, Hl' by lia.
  destruct (Z.ltb_spec i (Z.of_nat (length rows))) as [HiL|HiL]; cbn [andb].
  - destruct (Hrow (Z.to_nat i) ltac:(lia)) as (slice & Hslice & ->).
    cbn [from_option id]. rewrite testbit_getParity by lia.
    destruct (Z.ltb_spec (Z.of_nat x) 5); [cbn [andb]|lia].
    apply column_parity_ext. intros y Hy.
    pose proof (same_state_bits slices lanes x y (Z.to_nat i) Hsame
                  ltac:(lia) Hy ltac:(lia)) as Hxy.
    rewrite Hslice, Z2Nat.id in Hxy by lia. cbn [from_option id] in Hxy.
    rewrite <- Hxy. f_equal. lia.
  - unfold column_parity.
    assert (forall y, (y < 5)%nat ->
              Z.testbit (default 0 (lanes !! getLaneIndex x y)) i = false) as Hhigh.
    { intros y Hy. unfold getLaneIndex.
      destruct (lookup_lt_is_Some_2 lanes (x + 5 * y) ltac:(lia)) as [l Hlk].
      rewrite Hlk. cbn [from_option id].
      pose proof (lookup_Forall _ _ _ _ Hlanes Hlk) as Hrange. cbn beta in Hrange.
      apply (testbit_high l (Z.of_nat (length slices))); lia. }
    now rewrite !Hhigh by lia.
Qed.

Lemma parity_by_slices_equals_parity_by_lanes_witness :
  exists rows sheets,
    getParity_slices [33554431; 1057] [0; 0] = Some rows /\
    fromSlicesToSheetsParity rows [] = Some sheets /\
    getParity_lanes
      [3; 1; 1; 1; 1;  3; 1; 1; 1; 1;  3; 1; 1; 1; 1;
       1; 1; 1; 1; 1;  1; 1; 1; 1; 1] [] = Some sheets.
Proof.
  apply parity_by_slices_equals_parity_by_lanes.
  - cbn [length]. lia.
  - reflexivity.
  - reflexivity.
  - repeat constructor; cbn; lia.
  - vm_compute. reflexivity.
Defined.

(** ** Arguments out of range *)

(** C8, as stated, fails.  Read in the way most favourable to it - a call
    with [z >= 8] never returns a value - it is refuted at slot 12, where
    packing the row 31 returns a word that has lost the top bit of the
    row: slot 12 of the result reads 15. *)
Lemma out_of_range_slot_not_rejected :
  getPackedParityFromParity 31 12 = Some 17293822569102704640 /\
  getParityFromPackedParity 8 17293822569102704640 12 = Some 15 /\
  ~ (forall parity z,
       0 <= parity <= 31 -> 8 <= z < 2 ^ 32 ->
       getPackedParityFromParity parity z = None).
Proof.
  split; [reflexivity|]. split; [reflexivity|].
  intros H. specialize (H 31 12 ltac:(lia) ltac:(split; [lia|reflexivity])).
  discriminate H.
Qed.

(** C8, amended.  The two inline functions check nothing: for every row
    value [parity] at most 31, every 64-bit word [packed] and every [z]
    with [8 <= z <= 12], [getPackedParityFromParity parity z] returns
    [parity << 5*z] reduced modulo 2^64 and
    [getParityFromPackedParity packed z] returns
    [(packed >> 5*z) & 0x1F], with no failure. *)
Theorem out_of_range_slot_unchecked (rb parity packed z : Z) :
  5 <= rb -> 0 <= parity <= 31 -> 0 <= packed < 2 ^ 64 -> 8 <= z <= 12 ->
  getPackedParityFromParity parity z
    = Some ((parity * 2 ^ (5 * z)) mod 2 ^ 64) /\
  getParityFromPackedParity rb packed z
    = Some ((packed / 2 ^ (5 * z)) mod 32).
Proof.
  intros Hrb Hp Hw Hz. split.
  - unfold getPackedParityFromParity, Word.shl, PackedParity_bits.
    rewrite umul_5_small by lia.
    destruct (Z.ltb_spec (5 * z) 64) as [_|]; [|lia].
    rewrite (wrap_small 64 parity)
      by (change (2 ^ 64) with 18446744073709551616; lia).
    unfold Word.wrap. now rewrite Z.shiftl_mul_pow2 by lia.
  - now apply unpack_is_field; lia.
Qed.

Lemma out_of_range_slot_unchecked_witness :
  getPackedParityFromParity 1 8 = Some 1099511627776 /\
  getParityFromPackedParity 8 1099511627776 8 = Some 1.
Proof.
  exact (out_of_range_slot_unchecked 8 1 1099511627776 8
           ltac:(lia) ltac:(lia) ltac:(split; [lia|reflexivity]) ltac:(lia)).
Defined.

(** ** Further properties of the inline functions *)

(** X1.  The word has room for twelve whole slots: for every row value
    [v] at most 31 and every slot [z] up to 11, reading slot [z'] (up to
    12) of the word packed from [v] at [z] returns [v] when [z' = z] and
    0 otherwise. *)
Theorem twelve_slots_roundtrip (rb v z z' : Z) :
  5 <= rb -> 0 <= v <= 31 -> 0 <= z <= 11 -> 0 <= z' <= 12 ->
  exists w,
    getPackedParityFromParity v z = Some w /\
    getParityFromPackedParity rb w z' = Some (if z' =? z then v else 0).
Proof.
  intros Hrb Hv Hz Hz'. exists (Z.shiftl v (5 * z)).
  split; [apply pack_is_shiftl; lia|].
  rewrite unpack_is_field by lia. f_equal. apply field_shiftl_row; lia.
Qed.

Lemma twelve_slots_roundtrip_witness :
  exists w,
    getPackedParityFromParity 31 11 = Some w /\
    getParityFromPackedParity 8 w 11 = Some 31.
Proof.
  exact (twelve_slots_roundtrip 8 31 11 11
           ltac:(lia) ltac:(lia) ltac:(lia) ltac:(lia)).
Defined.

(** X2.  Combining a packed word with the word packed from a row [d] at
    slot [z], by XOR or by OR, changes slot [z] by [d] and leaves every
    other slot as it was. *)
Theorem combine_changes_one_slot (rb p d z z' : Z) :
  5 <= rb -> 0 <= p < 2 ^ 64 -> 0 <= d <= 31 ->
  0 <= z <= 11 -> 0 <= z' <= 12 ->
  exists w v,
    getPackedParityFromParity d z = Some w /\
    getParityFromPackedParity rb p z' = Some v /\
    getParityFromPackedParity rb (Z.lxor p w) z'
      = Some (if z' =? z then Z.lxor v d else v) /\
    getParityFromPackedParity rb (Z.lor p w) z'
      = Some (if z' =? z then Z.lor v d else v).
Proof.
  intros Hrb Hp Hd Hz Hz'. exists (Z.shiftl d (5 * z)), (field p z').
  split; [apply pack_is_shiftl; lia|].
  rewrite !unpack_is_field by lia. split; [reflexivity|].
  rewrite field_lxor, field_lor, field_shiftl_row by lia.
  destruct (z' =? z); [split; reflexivity|].
  now rewrite Z.lxor_0_r, Z.lor_0_r.
Qed.

Lemma combine_changes_one_slot_witness :
  exists w v,
    getPackedParityFromParity 6 1 = Some w /\
    getParityFromPackedParity 8 5217 1 = Some v /\
    getParityFromPackedParity 8 (Z.lxor 5217 w) 1 = Some (Z.lxor v 6) /\
    getParityFromPackedParity 8 (Z.lor 5217 w) 1 = Some (Z.lor v 6).
Proof.
  exact (combine_changes_one_slot 8 5217 6 1 1
           ltac:(lia) ltac:(split; [lia|reflexivity]) ltac:(lia)
           ltac:(lia) ltac:(lia)).
Defined.

(** X3.  Packing is injective on the twelve whole slots: if a row [a] at
    slot [z] and a row [b] at slot [z'] pack to the same word, then
    [a = b], and the slots are the same unless the row is 0. *)
Theorem pack_injective (a b z z' : Z) :
  0 <= a <= 31 -> 0 <= b <= 31 -> 0 <= z <= 11 -> 0 <= z' <= 11 ->
  getPackedParityFromParity a z = getPackedParityFromParity b z' ->
  a = b /\ (a = 0 \/ z = z').
Proof.
  intros Ha Hb Hz Hz'. rewrite !pack_is_shiftl by lia. intros [= Heq].
  pose proof (field_shiftl_row a z z Ha ltac:(lia) ltac:(lia)) as Hza.
  pose proof (field_shiftl_row b z' z Hb ltac:(lia) ltac:(lia)) as Hzb.
  pose proof (field_shiftl_row a z z' Ha ltac:(lia) ltac:(lia)) as Hz'a.
  pose proof (field_shiftl_row b z' z' Hb ltac:(lia) ltac:(lia)) as Hz'b.
  rewrite Heq in Hza, Hz'a. rewrite Z.eqb_refl in *.
  destruct (Z.eqb_spec z z') as [->|Hne].
  - split; [congruence|now right].
  - destruct (Z.eqb_spec z' z); [lia|].
    split; [congruence|left; congruence].
Qed.

Lemma pack_injective_witness :
  21 = 21 /\ (21 = 0 \/ 3 = 3).
Proof.
  exact (pack_injective 21 21 3 3
           ltac:(lia) ltac:(lia) ltac:(lia) ltac:(lia) eq_refl).
Defined.

(** X4.  Words packed at two different slots have no bit in common, so
    OR-ing them, XOR-ing them and adding them give the same word. *)
Theorem distinct_slots_disjoint (a b z z' : Z) :
  0 <= a <= 31 -> 0 <= b <= 31 ->
  0 <= z <= 11 -> 0 <= z' <= 11 -> z <> z' ->
  exists wa wb,
    getPackedParityFromParity a z = Some wa /\
    getPackedParityFromParity b z' = Some wb /\
    Z.land wa wb = 0 /\
    Z.lor wa wb = wa + wb /\
    Z.lxor wa wb = wa + wb.
Proof.
  intros Ha Hb Hz Hz' Hne.
  exists (Z.shiftl a (5 * z)), (Z.shiftl b (5 * z')).
  split; [apply pack_is_shiftl; lia|].
  split; [apply pack_is_shiftl; lia|].
  assert (Z.land (Z.shiftl a (5 * z)) (Z.shiftl b (5 * z')) = 0) as Hland.
  { apply Z.bits_inj'. intros i Hi.
    rewrite Z.land_spec, !testbit_shiftl_row, Z.testbit_0_l by lia.
    destruct (Z.leb_spec (5 * z) i), (Z.ltb_spec i (5 * z + 5)),
      (Z.leb_spec (5 * z') i), (Z.ltb_spec i (5 * z' + 5));
      cbn [andb]; try reflexivity; try lia.
    all: now rewrite ?andb_false_r. }
  split; [exact Hland|].
  rewrite <- (Z.lxor_lor _ _ Hland), (Z.add_nocarry_lxor _ _ Hland).
  split; reflexivity.
Qed.

Lemma distinct_slots_disjoint_witness :
  exists wa wb,
    getPackedParityFromParity 21 3 = Some wa /\
    getPackedParityFromParity 7 0 = Some wb /\
    Z.land wa wb = 0 /\
    Z.lor wa wb = wa + wb /\
    Z.lxor wa wb = wa + wb.
Proof.
  exact (distinct_slots_disjoint 21 7 3 0
           ltac:(lia) ltac:(lia) ltac:(lia) ltac:(lia) ltac:(lia)).
Defined.

(** X5.  Unpacking slot [z] of a 64-bit word and packing the value back
    at [z] gives the word masked to the bits of the slot; the other
    slots of that word read 0. *)
Theorem repack_is_slot_mask (rb p z : Z) :
  5 <= rb -> 0 <= p < 2 ^ 64 -> 0 <= z <= 12 ->
  exists v w,
    getParityFromPackedParity rb p z = Some v /\
    getPackedParityFromParity v z = Some w /\
    w = Z.land p (Z.shiftl 0x1F (5 * z)) /\
    forall z', 0 <= z' <= 12 ->
      getParityFromPackedParity rb w z' = Some (if z' =? z then v else 0).
Proof.
  intros Hrb Hp Hz.
  exists (field p z), (Z.land p (Z.shiftl 0x1F (5 * z))).
  split; [apply unpack_is_field; lia|].
  pose proof (field_range p z) as Hv.
  split; [|split; [reflexivity|]].
  - rewrite pack_is_wrap_shiftl by (try apply row_lt_word; lia). f_equal.
    apply Z.bits_inj'. intros i Hi.
    rewrite testbit_wrap, Z.land_spec, !testbit_shiftl_row by lia.
    destruct (Z.leb_spec (5 * z) i), (Z.ltb_spec i (5 * z + 5));
      cbn [andb]; rewrite ?andb_false_r; try reflexivity.
    rewrite testbit_field by lia.
    change 31 with (Z.ones 5). rewrite Z.testbit_ones_nonneg by lia.
    replace (5 * z + (i - 5 * z)) with i by lia.
    destruct (Z.ltb_spec (i - 5 * z) 5); [cbn [andb]|lia].
    rewrite andb_true_r. destruct (Z.ltb_spec i 64); [reflexivity|].
    cbn [andb]. now rewrite (testbit_high p 64) by lia.
  - intros z' Hz'. rewrite unpack_is_field by lia. f_equal.
    apply Z.bits_inj'. intros j Hj.
    rewrite testbit_field, Z.land_spec, testbit_shiftl_row by lia.
    destruct (Z.eqb_spec z' z) as [->|Hne].
    + rewrite testbit_field by lia.
      change 31 with (Z.ones 5). rewrite Z.testbit_ones_nonneg by lia.
      replace (5 * z + j - 5 * z) with j by lia.
      destruct (Z.ltb_spec j 5); cbn [andb]; [|reflexivity].
      destruct (Z.leb_spec (5 * z) (5 * z + j)); [|lia].
      destruct (Z.ltb_spec (5 * z + j) (5 * z + 5)); [|lia].
      cbn [andb]. now rewrite andb_true_r.
    + rewrite Z.testbit_0_l.
      destruct (Z.ltb_spec j 5); cbn [andb]; [|reflexivity].
      destruct (Z.leb_spec (5 * z) (5 * z' + j)),
        (Z.ltb_spec (5 * z' + j) (5 * z + 5));
        cbn [andb]; rewrite ?andb_false_r; try reflexivity.
      lia.
Qed.

Lemma repack_is_slot_mask_witness :
  exists v w,
    getParityFromPackedParity 8 5217 2 = Some v /\
    getPackedParityFromParity v 2 = Some w /\
    w = Z.land 5217 (Z.shiftl 0x1F (5 * 2)) /\
    getParityFromPackedParity 8 w 1 = Some 0.
Proof.
  destruct (repack_is_slot_mask 8 5217 2
              ltac:(lia) ltac:(split; [lia|reflexivity]) ltac:(lia))
    as (v & w & Hv & Hw & Hmask & Hother).
  exists v, w. split; [exact Hv|]. split; [exact Hw|]. split; [exact Hmask|].
  exact (Hother 1 ltac:(lia)).
Defined.

(** X6.  Slot 12 holds four bits only: packing a row [v] at slot 12
    returns [(v mod 16) * 2^60], whose slot 12 reads [v mod 16] and whose
    other slots read 0; a row of 16 or more does not come back. *)
Theorem slot_12_keeps_four_bits (rb v : Z) :
  5 <= rb -> 0 <= v <= 31 ->
  exists w,
    getPackedParityFromParity v 12 = Some w /\
    w = (v mod 16) * 2 ^ 60 /\
    getParityFromPackedParity rb w 12 = Some (v mod 16) /\
    (forall z', 0 <= z' <= 11 -> getParityFromPackedParity rb w z' = Some 0) /\
    (16 <= v -> getParityFromPackedParity rb w 12 <> Some v).
Proof.
  intros Hrb Hv. exists (Z.shiftl (v mod 16) (5 * 12)).
  assert (0 <= v mod 16 <= 31) as Hr
    by (pose proof (Z.mod_pos_bound v 16 eq_refl); lia).
  split; [|split; [|split; [|split]]].
  - rewrite pack_is_wrap_shiftl by (try apply row_lt_word; lia). f_equal.
    unfold Word.wrap. rewrite !Z.shiftl_mul_pow2 by lia.
    change (2 ^ 64) with (16 * 2 ^ (5 * 12)).
    apply Z.mul_mod_distr_r; [lia|]. apply Z.pow_nonzero; lia.
  - now rewrite Z.shiftl_mul_pow2 by lia.
  - rewrite unpack_is_field by lia. now rewrite field_shiftl_same by lia.
  - intros z' Hz'. rewrite unpack_is_field by lia.
    now rewrite field_shiftl_other by lia.
  - intros H16. rewrite unpack_is_field by lia.
    rewrite field_shiftl_same by lia. intros [= Heq].
    pose proof (Z.mod_pos_bound v 16 eq_refl). lia.
Qed.

Lemma slot_12_keeps_four_bits_witness :
  exists w,
    getPackedParityFromParity 31 12 = Some w /\
    w = 15 * 2 ^ 60 /\
    getParityFromPackedParity 8 w 12 = Some 15 /\
    getParityFromPackedParity 8 w 12 <> Some 31.
Proof.
  destruct (slot_12_keeps_four_bits 8 31 ltac:(lia) ltac:(lia))
    as (w & Hw & Hval & Hread & _ & Hlost).
  exists w. split; [exact Hw|]. split; [exact Hval|]. split; [exact Hread|].
  apply Hlost. lia.
Defined.



(** X8.  From slot 13 on the shift amount [5*z] is 65 or more, so both
    functions shift a 64-bit word by at least its width and have no
    defined result (for every [z] whose product [5*z] fits unsigned int). *)
Theorem shift_undefined_from_slot_13 (rb parity packed z : Z) :
  13 <= z <= 858993459 ->
  getPackedParityFromParity parity z = None /\
  getParityFromPackedParity rb packed z = None.
Proof.
  intros Hz.
  assert (Word.umul 5 z = 5 * z) as Hmul.
  { unfold Word.umul. apply wrap_small.
    change (2 ^ 32) with 4294967296. lia. }
  unfold getPackedParityFromParity, getParityFromPackedParity,
    Word.shl, Word.shr, PackedParity_bits.
  rewrite Hmul. destruct (Z.ltb_spec (5 * z) 64); [lia|].
  split; reflexivity.
Qed.

Lemma shift_undefined_from_slot_13_witness :
  getPackedParityFromParity 1 13 = None /\
  getParityFromPackedParity 8 1 13 = None.
Proof.
  exact (shift_undefined_from_slot_13 8 1 1 13 ltac:(lia)).
Defined.

(** X9.  A word below 2^40 is the base-32 numeral of its eight slots: the
    values [v0 .. v7] unpacked from slots 0 to 7 satisfy
    [packed = v0 + 32*v1 + 32^2*v2 + ... + 32^7*v7]. *)
Theorem slots_are_base32_digits (rb packed : Z) :
  5 <= rb -> 0 <= packed < 2 ^ 40 ->
  exists v0 v1 v2 v3 v4 v5 v6 v7,
    getParityFromPackedParity rb packed 0 = Some v0 /\
    getParityFromPackedParity rb packed 1 = Some v1 /\
    getParityFromPackedParity rb packed 2 = Some v2 /\
    getParityFromPackedParity rb packed 3 = Some v3 /\
    getParityFromPackedParity rb packed 4 = Some v4 /\
    getParityFromPackedParity rb packed 5 = Some v5 /\
    getParityFromPackedParity rb packed 6 = Some v6 /\
    getParityFromPackedParity rb packed 7 = Some v7 /\
    packed = v0 + 32 * (v1 + 32 * (v2 + 32 * (v3 + 32 * (v4 + 32 *
               (v5 + 32 * (v6 + 32 * v7)))))).
Proof.
  intros Hrb Hp.
  exists (field packed 0), (field packed 1), (field packed 2), (field packed 3),
    (field packed 4), (field packed 5), (field packed 6), (field packed 7).
  rewrite !unpack_is_field by lia.
  repeat (split; [reflexivity|]).
  unfold field.
  change (2 ^ (5 * 0)) with 1. change (2 ^ (5 * 1)) with 32.
  change (2 ^ (5 * 2)) with (32 * 32).
  change (2 ^ (5 * 3)) with (32 * 32 * 32).
  change (2 ^ (5 * 4)) with (32 * 32 * 32 * 32).
  change (2 ^ (5 * 5)) with (32 * 32 * 32 * 32 * 32).
  change (2 ^ (5 * 6)) with (32 * 32 * 32 * 32 * 32 * 32).
  change (2 ^ (5 * 7)) with (32 * 32 * 32 * 32 * 32 * 32 * 32).
  change (2 ^ 40) with (32 * 32 * 32 * 32 * 32 * 32 * 32 * 32) in Hp.
  rewrite Z.div_1_r, <- !Z.div_div by lia.
  set (q1 := packed / 32). set (q2 := q1 / 32). set (q3 := q2 / 32).
  set (q4 := q3 / 32). set (q5 := q4 / 32). set (q6 := q5 / 32).
  set (q7 := q6 / 32).
  pose proof (Z.div_mod packed 32 ltac:(lia)) as E0.
  pose proof (Z.div_mod q1 32 ltac:(lia)) as E1.
  pose proof (Z.div_mod q2 32 ltac:(lia)) as E2.
  pose proof (Z.div_mod q3 32 ltac:(lia)) as E3.
  pose proof (Z.div_mod q4 32 ltac:(lia)) as E4.
  pose proof (Z.div_mod q5 32 ltac:(lia)) as E5.
  pose proof (Z.div_mod q6 32 ltac:(lia)) as E6.
  assert (q7 mod 32 = q7) as E7.
  { apply Z.mod_small. subst q7 q6 q5 q4 q3 q2 q1.
    rewrite !Z.div_div by lia. split.
    - apply Z.div_pos; lia.
    - apply Z.div_lt_upper_bound; lia. }
  fold q1 in E0. fold q2 in E1. fold q3 in E2. fold q4 in E3.
  fold q5 in E4. fold q6 in E5. fold q7 in E6.
  lia.
Qed.

Lemma slots_are_base32_digits_witness :
  exists v0 v1 v2 v3 v4 v5 v6 v7,
    getParityFromPackedParity 8 5217 0 = Some v0 /\
    getParityFromPackedParity 8 5217 1 = Some v1 /\
    getParityFromPackedParity 8 5217 2 = Some v2 /\
    getParityFromPackedParity 8 5217 3 = Some v3 /\
    getParityFromPackedParity 8 5217 4 = Some v4 /\
    getParityFromPackedParity 8 5217 5 = Some v5 /\
    getParityFromPackedParity 8 5217 6 = Some v6 /\
    getParityFromPackedParity 8 5217 7 = Some v7 /\
    5217 = v0 + 32 * (v1 + 32 * (v2 + 32 * (v3 + 32 * (v4 + 32 *
             (v5 + 32 * (v6 + 32 * v7)))))).
Proof.
  exact (slots_are_base32_digits 8 5217
           ltac:(lia) ltac:(split; [lia|reflexivity])).
Defined.

(** X10.  Conversely, for eight rows [v0 .. v7] each at most 31, the word
    [v0 + 32*v1 + ... + 32^7*v7] (the layout the header documents: the
    parity of slice z in the bits of weight 32^z) is below 2^40 and
    unpacking its slot [z] returns [vz], for every [z] from 0 to 7. *)
Theorem base32_numeral_unpacks_to_digits (rb v0 v1 v2 v3 v4 v5 v6 v7 : Z) :
  5 <= rb ->
  0 <= v0 <= 31 -> 0 <= v1 <= 31 -> 0 <= v2 <= 31 -> 0 <= v3 <= 31 ->
  0 <= v4 <= 31 -> 0 <= v5 <= 31 -> 0 <= v6 <= 31 -> 0 <= v7 <= 31 ->
  let packed :=
    v0 + 32 * (v1 + 32 * (v2 + 32 * (v3 + 32 * (v4 + 32 *
      (v5 + 32 * (v6 + 32 * v7)))))) in
  0 <= packed < 2 ^ 40 /\
  getParityFromPackedParity rb packed 0 = Some v0 /\
  getParityFromPackedParity rb packed 1 = Some v1 /\
  getParityFromPackedParity rb packed 2 = Some v2 /\
  getParityFromPackedParity rb packed 3 = Some v3 /\
  getParityFromPackedParity rb packed 4 = Some v4 /\
  getParityFromPackedParity rb packed 5 = Some v5 /\
  getParityFromPackedParity rb packed 6 = Some v6 /\
  getParityFromPackedParity rb packed 7 = Some v7.
Proof.
  intros Hrb H0 H1 H2 H3 H4 H5 H6 H7 packed.
  split; [change (2 ^ 40) with 1099511627776; subst packed; lia|].
  rewrite !unpack_is_field by lia. unfold field.
  change (2 ^ (5 * 0)) with 1. change (2 ^ (5 * 1)) with 32.
  change (2 ^ (5 * 2)) with (32 * 32).
  change (2 ^ (5 * 3)) with (32 * 32 * 32).
  change (2 ^ (5 * 4)) with (32 * 32 * 32 * 32).
  change (2 ^ (5 * 5)) with (32 * 32 * 32 * 32 * 32).
  change (2 ^ (5 * 6)) with (32 * 32 * 32 * 32 * 32 * 32).
  change (2 ^ (5 * 7)) with (32 * 32 * 32 * 32 * 32 * 32 * 32).
  rewrite Z.div_1_r, <- !Z.div_div by lia. subst packed.
  rewrite !horner_div, !horner_mod by lia.
  rewrite (Z.mod_small v7) by lia.
  repeat split; reflexivity.
Qed.

Lemma base32_numeral_unpacks_to_digits_witness :
  getParityFromPackedParity 8 5217 2 = Some 5.
Proof.
  exact (proj1 (proj2 (proj2 (proj2
    (base32_numeral_unpacks_to_digits 8 1 3 5 0 0 0 0 0
       ltac:(lia) ltac:(lia) ltac:(lia) ltac:(lia) ltac:(lia)
       ltac:(lia) ltac:(lia) ltac:(lia) ltac:(lia)))))).
Defined.
